(** * tools/check_parens.py: a bracket-balance scanner

    The script reads one Kotlin source file, walks over it line by line
    and character by character with three signed counters, prints one
    record per line and a summary, and leaves through [sys.exit].

    Python values are embedded as follows: a [str] is a list of Unicode
    code points, an [int] is a [Z], standard output is the list of texts
    written by the successive [print] calls, and an exception that nobody
    catches ends the run and fixes the exit status of the process. *)

From Stdlib Require Import Ascii String List ZArith NArith Lia Bool Permutation.
From Equations.Prop Require Import Equations Logic.
Import ListNotations.

Set Implicit Arguments.

(** ** Text *)

Definition char := N.
Definition text := list char.

Definition ord (a : ascii) : char := N_of_ascii a.

(** A Python string literal without escapes. *)
Definition lit (s : string) : text := map ord (list_ascii_of_string s).

Definition LF : char := 10%N.
Definition CR : char := 13%N.
Definition SPACE : char := ord " ".

(** ** The counters and the character dispatch (lines 5-7 and 11-22) *)

Record counters : Set := Counters { paren : Z; brace : Z; brack : Z }.

Definition zero : counters := Counters 0 0 0.

Definition step (k : counters) (c : char) : counters :=
  if N.eqb c (ord "(") then Counters (paren k + 1) (brace k) (brack k)
  else if N.eqb c (ord ")") then Counters (paren k - 1) (brace k) (brack k)
  else if N.eqb c (ord "{") then Counters (paren k) (brace k + 1) (brack k)
  else if N.eqb c (ord "}") then Counters (paren k) (brace k - 1) (brack k)
  else if N.eqb c (ord "[") then Counters (paren k) (brace k) (brack k + 1)
  else if N.eqb c (ord "]") then Counters (paren k) (brace k) (brack k - 1)
  else k.

(** [for c in l: ...], the inner loop. *)
Definition scan_line (k : counters) (l : text) : counters := fold_left step l k.

Definition is_bracket (c : char) : bool :=
  existsb (N.eqb c) (lit "(){}[]").

(** Number of occurrences of a character, as a Python [int]. *)
Fixpoint occurrences (c : char) (s : text) : Z :=
  match s with
  | [] => 0
  | d :: s' => (if N.eqb d c then 1 else 0) + occurrences c s'
  end%Z.

(** Opens minus closes of one bracket kind. *)
Definition net (opening closing : ascii) (s : text) : Z :=
  (occurrences (ord opening) s - occurrences (ord closing) s)%Z.

(** ** [open(..., newline=None)] and [str.splitlines] *)

(** Text mode with universal newlines, which is what [Path.read_text]
    uses: CR LF and a lone CR both reach the program as LF. *)
Fixpoint universal_newlines (s : text) : text :=
  match s with
  | [] => []
  | c :: s' =>
      if N.eqb c CR then
        LF :: match s' with
              | d :: s'' => if N.eqb d LF then universal_newlines s''
                            else universal_newlines s'
              | [] => []
              end
      else c :: universal_newlines s'
  end.

(** The line boundaries of [str.splitlines]: LF, CR, VT, FF, FS, GS, RS,
    NEL, LINE SEPARATOR and PARAGRAPH SEPARATOR. *)
Definition line_boundaries : list char :=
  [10; 13; 11; 12; 28; 29; 30; 133; 8232; 8233]%N.

Definition is_linebreak (c : char) : bool := existsb (N.eqb c) line_boundaries.

(** Put a character in front of the line that is being read. *)
Definition push (c : char) (ls : list text) : list text :=
  match ls with
  | [] => [[c]]
  | l :: ls' => (c :: l) :: ls'
  end.

(** [s.splitlines()]: boundaries are dropped, CR LF counts once, and a
    text that ends on a boundary has no empty last line. *)
Fixpoint splitlines (s : text) : list text :=
  match s with
  | [] => []
  | c :: s' =>
      if is_linebreak c then
        [] :: match s' with
              | d :: s'' => if N.eqb c CR && N.eqb d LF then splitlines s''
                            else splitlines s'
              | [] => []
              end
      else push c (splitlines s')
  end.

(** ** [str(n)] and the [d] format specification *)

Definition digit (n : N) : char := (ord "0" + n)%N.

Equations? digits_onto (n : N) (acc : text) : text by wf (N.to_nat n) lt :=
  digits_onto n acc with inspect (N.ltb n 10) := {
    | exist _ true _ => digit n :: acc
    | exist _ false more => digits_onto (n / 10) (digit (n mod 10) :: acc) }.
Proof.
  apply N.ltb_ge in more.
  assert (n / 10 < n)%N by (apply N.div_lt; lia).
  lia.
Qed.

(** [str(n)] for an [int]. *)
Definition str_int (n : Z) : text :=
  if (n <? 0)%Z then ord "-" :: digits_onto (Z.abs_N n) []
  else digits_onto (Z.abs_N n) [].

(** [format(n, "<width>d")]: the decimal text, with blanks in front of
    it as long as it is shorter than [width]. *)
Definition format_d (width : nat) (n : Z) : text :=
  repeat SPACE (width - length (str_int n)) ++ str_int n.

(** Reading the text back: blanks are skipped, then an optional sign and
    decimal digits. *)
Definition digit_value (c : char) : option N :=
  if (N.leb (ord "0") c && N.leb c (ord "9"))%bool then Some (c - ord "0")%N
  else None.

Fixpoint read_digits (acc : N) (s : text) : option N :=
  match s with
  | [] => Some acc
  | c :: s' =>
      match digit_value c with
      | Some d => read_digits (acc * 10 + d) s'
      | None => None
      end
  end.

Fixpoint lstrip (s : text) : text :=
  match s with
  | c :: s' => if N.eqb c SPACE then lstrip s' else s
  | [] => []
  end.

(** [int(s)] *)
Definition int_of (s : text) : option Z :=
  match lstrip s with
  | [] => None
  | c :: s' =>
      if N.eqb c (ord "-") then
        match s' with
        | [] => None
        | _ => option_map (fun m => (- Z.of_N m)%Z) (read_digits 0 s')
        end
      else option_map Z.of_N (read_digits 0 (c :: s'))
  end.

(** ** The process: files, standard output, uncaught exceptions *)

(** What the file system holds at a path, as far as reading a text file
    with the UTF-8 codec can tell. *)
Inductive file_state : Type :=
| Absent
| Unreadable
| NotUTF8
| Holds (decoded : text).

(** What surrounds a run. The script looks at the file system only. *)
Record world : Type := World {
  files : string -> file_state;
  argv : list string;
  environ : list (string * string) }.

Inductive exn : Type :=
| FileNotFoundError
| PermissionError
| UnicodeDecodeError
| SystemExit (code : Z).

(** The effects of a run so far: the texts written to standard output,
    one per [print] call, and the paths that were opened. *)
Record effects : Type := Effects {
  stdout : list text;
  opened : list string }.

Definition M (A : Type) : Type := effects -> (A + exn) * effects.

Definition ret {A} (a : A) : M A := fun e => (inl a, e).

Definition raise {A} (x : exn) : M A := fun e => (inr x, e).

Definition bind {A B} (m : M A) (f : A -> M B) : M B :=
  fun e =>
    match m e with
    | (inl a, e') => f a e'
    | (inr x, e') => (inr x, e')
    end.

Notation "x <- m ;; f" := (bind m (fun x => f))
  (at level 61, m at next level, right associativity).
Notation "m ;;; f" := (bind m (fun _ => f))
  (at level 61, right associativity).

Fixpoint join (sep : text) (parts : list text) : text :=
  match parts with
  | [] => []
  | [p] => p
  | p :: ps => p ++ sep ++ join sep ps
  end.

(** [print] of several arguments, with the default [sep] and [end].
    Standard output is taken to accept every text. *)
Definition print (args : list text) : M unit :=
  fun e => (inl tt, Effects (stdout e ++ [join [SPACE] args ++ [LF]]) (opened e)).

(** [Path(p).read_text(encoding='utf-8')] *)
Definition read_text (w : world) (p : string) : M text :=
  fun e =>
    let e' := Effects (stdout e) (opened e ++ [p]) in
    match files w p with
    | Absent => (inr FileNotFoundError, e')
    | Unreadable => (inr PermissionError, e')
    | NotUTF8 => (inr UnicodeDecodeError, e')
    | Holds t => (inl (universal_newlines t), e')
    end.

(** [sys.exit(code)] *)
Definition sys_exit {A} (code : Z) : M A := raise (SystemExit code).

(** The status the interpreter hands to the operating system. *)
Definition exit_status (r : unit + exn) : Z :=
  match r with
  | inl _ => 0
  | inr (SystemExit code) => code
  | inr _ => 1
  end.

(** ** The script *)

Definition INPUT : string :=
  "g:\Paul\Visual Studio\BloodSugarApp\app\src\main\java\com\bloodsugar\app\ui\AddReadingScreen.kt".

(** The f-string of line 23. *)
Definition record (i : Z) (k : counters) (l : text) : text :=
  format_d 4 i ++ lit ": paren=" ++ format_d 3 (paren k)
    ++ lit " brace=" ++ format_d 3 (brace k)
    ++ lit " brack=" ++ format_d 3 (brack k)
    ++ lit " | " ++ l.

(** [for i,l in enumerate(lines, start=1): ...] *)
Fixpoint for_lines (i : Z) (lines : list text) (k : counters) : M counters :=
  match lines with
  | [] => ret k
  | l :: rest =>
      let k' := scan_line k l in
      print [record i k' l] ;;;
      for_lines (i + 1) rest k'
  end.

Definition unbalanced (k : counters) : bool :=
  negb (paren k =? 0)%Z || negb (brace k =? 0)%Z || negb (brack k =? 0)%Z.

Definition main (w : world) : M unit :=
  s <- read_text w INPUT ;;
  k <- for_lines 1 (splitlines s) zero ;;
  print [LF :: lit "FINAL COUNTS:";
         lit "paren"; str_int (paren k);
         lit "brace"; str_int (brace k);
         lit "brack"; str_int (brack k)] ;;;
  if unbalanced k then sys_exit 2 else sys_exit 0.

Definition run (w : world) : (unit + exn) * effects := main w (Effects [] []).

Definition output (w : world) : list text := stdout (snd (run w)).
Definition status (w : world) : Z := exit_status (fst (run w)).

(** A world whose input file holds [t]. *)
Definition world_with (f : file_state) : world :=
  World (fun p => if String.eqb p INPUT then f else Absent) [] [].

(** ** What the loop prints and returns, in closed form *)

(** The texts written by the loop over [lines], counting from [i] and
    starting with the counters [k]. *)
Fixpoint records (i : Z) (k : counters) (lines : list text) : list text :=
  match lines with
  | [] => []
  | l :: rest =>
      (record i (scan_line k l) l ++ [LF])
        :: records (i + 1) (scan_line k l) rest
  end.

(** The text written by the last [print]. *)
Definition summary (k : counters) : text :=
  LF :: lit "FINAL COUNTS:" ++ lit " paren " ++ str_int (paren k)
     ++ lit " brace " ++ str_int (brace k)
     ++ lit " brack " ++ str_int (brack k) ++ [LF].

(** The lines the loop runs over when the file holds [t]. *)
Definition lines_of (t : text) : list text := splitlines (universal_newlines t).

(** The counters after the loop when the file holds [t]. *)
Definition final (t : text) : counters := scan_line zero (concat (lines_of t)).

(** Following the specification: one pass over the whole text, from left
    to right, with no notion of line. *)
Definition scan_flat (s : text) : counters := fold_left step s zero.


(** Does [p] occur in [s] as a contiguous piece? *)
Fixpoint starts_with (p s : text) : bool :=
  match p, s with
  | [], _ => true
  | _ :: _, [] => false
  | a :: p', b :: s' => N.eqb a b && starts_with p' s'
  end.

Fixpoint contains (p s : text) : bool :=
  starts_with p s ||
  match s with
  | [] => false
  | _ :: s' => contains p s'
  end.

(** [field] shows [body] flush right in [width] columns: blanks come
    first, and there are as many as [body] leaves free. *)
Definition right_aligned (width : nat) (body field : text) : Prop :=
  exists pad : text,
    field = pad ++ body /\ Forall (eq SPACE) pad /\
    length field = Nat.max width (length body).

(** The end of [pre] and the start of [post] are the two halves of one
    CR LF. *)
Definition splits_crlf (pre post : text) : Prop :=
  last pre 0%N = CR /\ hd 0%N post = LF.


(** How far the counters are from zero, all three together. *)
Definition weight (k : counters) : Z :=
  (Z.abs (paren k) + Z.abs (brace k) + Z.abs (brack k))%Z.

(** A character that [splitlines] keeps. *)
Definition kept (c : char) : bool := negb (is_linebreak c).

(** * Properties *)

(** ** The character dispatch *)

Lemma step_other (k : counters) (c : char) :
  is_bracket c = false -> step k c = k.
Proof.
  unfold is_bracket, step; cbn.
  intros H.
  repeat (apply orb_false_elim in H; destruct H as [-> H]).
  reflexivity.
Qed.

Lemma linebreak_not_bracket (c : char) :
  is_linebreak c = true -> is_bracket c = false.
Proof.
  unfold is_linebreak, line_boundaries; cbn.
  intros H.
  repeat (apply orb_true_elim in H; destruct H as [H | H];
          [apply N.eqb_eq in H; subst c; reflexivity |]).
  discriminate.
Qed.

Lemma scan_line_app (k : counters) (s1 s2 : text) :
  scan_line k (s1 ++ s2) = scan_line (scan_line k s1) s2.
Proof. apply fold_left_app. Qed.

(** Each counter is where it started plus opens minus closes. *)
Lemma scan_line_net (s : text) : forall k : counters,
  scan_line k s =
  Counters (paren k + net "(" ")" s) (brace k + net "{" "}" s)
           (brack k + net "[" "]" s).
Proof.
  unfold scan_line, net.
  induction s as [| c s IH]; intros [p b q].
  - cbn. f_equal; lia.
  - cbn [fold_left occurrences]. rewrite IH. unfold step.
    change (ord "(") with 40%N; change (ord ")") with 41%N;
      change (ord "{") with 123%N; change (ord "}") with 125%N;
      change (ord "[") with 91%N; change (ord "]") with 93%N.
    repeat match goal with
           | |- context [N.eqb c ?x] => destruct (N.eqb_spec c x)
           end;
      cbn [paren brace brack]; f_equal; lia.
Qed.

(** ** Line splitting *)

(** Both line functions look two characters ahead, so their proofs go
    over a text and its tail together. *)
Lemma text_pair_ind (P : text -> Prop) :
  P [] ->
  (forall c, P [c]) ->
  (forall c d s, P s -> P (d :: s) -> P (c :: d :: s)) ->
  forall s, P s.
Proof.
  intros Hnil Hone Hstep s.
  enough (H : P s /\ forall c, P (c :: s)) by apply H.
  induction s as [| d s [IH1 IH2]]; split; auto.
Qed.

Lemma concat_push (c : char) (ls : list text) :
  concat (push c ls) = c :: concat ls.
Proof. destruct ls; reflexivity. Qed.

Lemma splitlines_cons (c : char) (s : text) :
  splitlines (c :: s) =
  if is_linebreak c then
    [] :: match s with
          | d :: s' => if N.eqb c CR && N.eqb d LF then splitlines s'
                       else splitlines s
          | [] => []
          end
  else push c (splitlines s).
Proof. destruct s; reflexivity. Qed.

(** A character that is no line boundary occurs in the lines as often as
    in the text. *)
Lemma occurrences_splitlines (x : char) :
  is_linebreak x = false ->
  forall s, occurrences x (concat (splitlines s)) = occurrences x s.
Proof.
  intros Hx.
  assert (Hdrop : forall c, is_linebreak c = true -> N.eqb c x = false).
  { intros c Hc. destruct (N.eqb_spec c x) as [-> |]; congruence. }
  induction s as [| c | c d s IH1 IH2] using text_pair_ind.
  - reflexivity.
  - rewrite splitlines_cons.
    destruct (is_linebreak c) eqn:Hc; cbn [splitlines push concat app occurrences];
      [rewrite (Hdrop c Hc) |]; lia.
  - rewrite splitlines_cons.
    destruct (is_linebreak c) eqn:Hc.
    + cbn [concat app occurrences]. rewrite (Hdrop c Hc).
      destruct (N.eqb c CR && N.eqb d LF) eqn:Hcrlf.
      * apply andb_prop in Hcrlf as [_ Hd]. apply N.eqb_eq in Hd. subst d.
        rewrite IH1, (Hdrop LF eq_refl). lia.
      * rewrite IH2. reflexivity.
    + rewrite concat_push. cbn [occurrences]. rewrite IH2. reflexivity.
Qed.

Lemma universal_newlines_cons (c : char) (s : text) :
  universal_newlines (c :: s) =
  if N.eqb c CR then
    LF :: match s with
          | d :: s' => if N.eqb d LF then universal_newlines s'
                       else universal_newlines s
          | [] => []
          end
  else c :: universal_newlines s.
Proof. destruct s; reflexivity. Qed.

(** Newline translation touches CR and LF only. *)
Lemma occurrences_universal_newlines (x : char) :
  is_linebreak x = false ->
  forall s, occurrences x (universal_newlines s) = occurrences x s.
Proof.
  intros Hx.
  assert (Hcr : N.eqb CR x = false).
  { destruct (N.eqb_spec CR x) as [<- |]; [discriminate | reflexivity]. }
  assert (Hlf : N.eqb LF x = false).
  { destruct (N.eqb_spec LF x) as [<- |]; [discriminate | reflexivity]. }
  induction s as [| c | c d s IH1 IH2] using text_pair_ind.
  - reflexivity.
  - rewrite universal_newlines_cons.
    destruct (N.eqb_spec c CR) as [-> |];
      cbn [universal_newlines occurrences]; rewrite ?Hcr, ?Hlf; lia.
  - rewrite universal_newlines_cons.
    destruct (N.eqb_spec c CR) as [-> |].
    + cbn [occurrences]. rewrite Hcr, Hlf.
      destruct (N.eqb_spec d LF) as [-> |].
      * rewrite IH1, Hlf. lia.
      * rewrite IH2. reflexivity.
    + cbn [occurrences]. rewrite IH2. reflexivity.
Qed.

Lemma bracket_not_linebreak (a : ascii) :
  is_bracket (ord a) = true -> is_linebreak (ord a) = false.
Proof.
  intros H. destruct (is_linebreak (ord a)) eqn:Hl; [| reflexivity].
  apply linebreak_not_bracket in Hl. congruence.
Qed.

(** The net count of a bracket kind survives both line functions. *)
Lemma net_lines_of (o c : ascii) (t : text) :
  is_bracket (ord o) = true -> is_bracket (ord c) = true ->
  net o c (concat (lines_of t)) = net o c t.
Proof.
  intros Ho Hc. unfold net, lines_of.
  rewrite !occurrences_splitlines, !occurrences_universal_newlines
    by (apply bracket_not_linebreak; assumption).
  reflexivity.
Qed.

Lemma final_net (t : text) :
  final t = Counters (net "(" ")" t) (net "{" "}" t) (net "[" "]" t).
Proof.
  unfold final. rewrite scan_line_net.
  rewrite !net_lines_of by reflexivity. reflexivity.
Qed.

(** ** The loop and the whole run *)

Lemma for_lines_run (lines : list text) : forall i k e,
  for_lines i lines k e =
  (inl (scan_line k (concat lines)),
   Effects (stdout e ++ records i k lines) (opened e)).
Proof.
  induction lines as [| l rest IH]; intros i k [out ops].
  - cbn. rewrite app_nil_r. reflexivity.
  - cbn [for_lines records concat]. unfold bind, print.
    cbn [stdout opened join]. rewrite IH. cbn [stdout opened].
    rewrite scan_line_app, <- app_assoc. reflexivity.
Qed.

Lemma summary_print (k : counters) :
  join [SPACE]
    [LF :: lit "FINAL COUNTS:"; lit "paren"; str_int (paren k);
     lit "brace"; str_int (brace k); lit "brack"; str_int (brack k)] ++ [LF]
  = summary k.
Proof.
  unfold summary. cbn [join]. cbn [lit list_ascii_of_string map app].
  repeat (rewrite <- ?app_assoc; cbn [app]). reflexivity.
Qed.

(** A run on a readable file, all at once. *)
Lemma run_holds (w : world) (t : text) :
  files w INPUT = Holds t ->
  run w =
  (inr (SystemExit (if unbalanced (final t) then 2 else 0)),
   Effects (records 1 zero (lines_of t) ++ [summary (final t)]) [INPUT]).
Proof.
  intros Hf. unfold run, main, bind at 1, read_text. rewrite Hf.
  unfold bind at 1. rewrite for_lines_run. cbn [stdout opened app].
  unfold bind, print. cbn [stdout opened]. rewrite summary_print.
  fold (lines_of t). fold (final t).
  destruct (unbalanced (final t)); reflexivity.
Qed.

Lemma length_records (lines : list text) : forall i k,
  length (records i k lines) = length lines.
Proof.
  induction lines as [| l rest IH]; intros i k; cbn; [| rewrite IH]; reflexivity.
Qed.

(** The record of the line at position [n], counting from 0. *)
Lemma nth_records (lines : list text) : forall n i k l,
  nth_error lines n = Some l ->
  nth_error (records i k lines) n =
  Some (record (i + Z.of_nat n)
               (scan_line k (concat (firstn (S n) lines))) l ++ [LF]).
Proof.
  induction lines as [| l0 rest IH]; intros [| n] i k l Hn;
    try discriminate.
  - cbn in Hn. injection Hn as ->. cbn [records nth_error firstn concat].
    rewrite app_nil_r, Z.add_0_r. reflexivity.
  - cbn [nth_error] in Hn. cbn [records nth_error].
    rewrite (IH n _ _ l Hn).
    change (firstn (S (S n)) (l0 :: rest)) with (l0 :: firstn (S n) rest).
    cbn [concat]. rewrite scan_line_app.
    replace (i + 1 + Z.of_nat n)%Z with (i + Z.of_nat (S n))%Z by lia.
    reflexivity.
Qed.

Lemma output_holds (w : world) (t : text) :
  files w INPUT = Holds t ->
  output w = records 1 zero (lines_of t) ++ [summary (final t)].
Proof. intros Hf. unfold output. rewrite (run_holds w Hf). reflexivity. Qed.

Lemma status_holds (w : world) (t : text) :
  files w INPUT = Holds t ->
  status w = if unbalanced (final t) then 2%Z else 0%Z.
Proof. intros Hf. unfold status. rewrite (run_holds w Hf). reflexivity. Qed.

Lemma unbalanced_false (k : counters) :
  unbalanced k = false <-> (paren k = 0 /\ brace k = 0 /\ brack k = 0)%Z.
Proof.
  unfold unbalanced. rewrite !orb_false_iff, !negb_false_iff, !Z.eqb_eq.
  tauto.
Qed.

(** ** Decimal texts *)

Lemma digits_onto_step (n : N) (acc : text) :
  digits_onto n acc =
  if N.ltb n 10 then digit n :: acc
  else digits_onto (n / 10) (digit (n mod 10) :: acc).
Proof.
  funelim (digits_onto n acc).
  - rewrite e. reflexivity.
  - rewrite more. reflexivity.
Qed.

Lemma tenth_lt (n : N) : (n <? 10)%N = false -> (n / 10 < n)%N.
Proof. intros H. apply N.ltb_ge in H. apply N.div_lt; lia. Qed.

Lemma digits_onto_app (n : N) : forall acc,
  digits_onto n acc = digits_onto n [] ++ acc.
Proof.
  induction n as [n IH] using (well_founded_induction N.lt_wf_0).
  intros acc. rewrite (digits_onto_step n acc), (digits_onto_step n []).
  destruct (n <? 10)%N eqn:Hn; [reflexivity |].
  rewrite (IH _ (tenth_lt n Hn) (_ :: acc)), (IH _ (tenth_lt n Hn) [_]).
  rewrite <- app_assoc. reflexivity.
Qed.

(** The digits of a number of two digits or more: those of its tenth,
    then the last one. *)
Lemma digits_onto_snoc (n : N) :
  (n <? 10)%N = false ->
  digits_onto n [] = digits_onto (n / 10) [] ++ [digit (n mod 10)].
Proof.
  intros Hn. rewrite (digits_onto_step n []), Hn. apply digits_onto_app.
Qed.

Lemma digits_onto_head (n : N) :
  exists m rest, (m < 10)%N /\ digits_onto n [] = digit m :: rest.
Proof.
  induction n as [n IH] using (well_founded_induction N.lt_wf_0).
  destruct (n <? 10)%N eqn:Hn.
  - exists n, []. rewrite digits_onto_step, Hn.
    apply N.ltb_lt in Hn. split; [assumption | reflexivity].
  - destruct (IH _ (tenth_lt n Hn)) as (m & rest & Hm & E).
    exists m, (rest ++ [digit (n mod 10)]).
    rewrite (digits_onto_snoc n Hn), E. split; [assumption | reflexivity].
Qed.

(** A number of at least [10 ^ k] has more than [k] digits. *)
Lemma length_digits_onto (k : nat) : forall n : N,
  (10 ^ N.of_nat k <= n)%N -> k < length (digits_onto n []).
Proof.
  induction k as [| k IH]; intros n Hn.
  - destruct (digits_onto_head n) as (m & rest & _ & ->). cbn. lia.
  - rewrite Nat2N.inj_succ, N.pow_succ_r' in Hn.
    assert (H1 : (1 <= 10 ^ N.of_nat k)%N).
    { pose proof (N.pow_nonzero 10 (N.of_nat k)). lia. }
    assert (Hge : (n <? 10)%N = false) by (apply N.ltb_ge; lia).
    rewrite (digits_onto_snoc n Hge), length_app. cbn [length].
    assert (10 ^ N.of_nat k <= n / 10)%N
      by (apply N.div_le_lower_bound; lia).
    specialize (IH (n / 10)%N H). lia.
Qed.

Lemma digit_value_digit (m : N) :
  (m < 10)%N -> digit_value (digit m) = Some m.
Proof.
  intros Hm. unfold digit_value, digit.
  change (ord "0") with 48%N. change (ord "9") with 57%N.
  replace (48 <=? 48 + m)%N with true by (symmetry; apply N.leb_le; lia).
  replace (48 + m <=? 57)%N with true by (symmetry; apply N.leb_le; lia).
  cbn [andb]. f_equal. lia.
Qed.

Lemma read_digits_app (s1 s2 : text) : forall a,
  read_digits a (s1 ++ s2) =
  match read_digits a s1 with
  | Some b => read_digits b s2
  | None => None
  end.
Proof.
  induction s1 as [| c s1 IH]; intros a; cbn [app read_digits];
    [reflexivity |].
  destruct (digit_value c); [apply IH | reflexivity].
Qed.

Lemma read_digits_onto (n : N) : read_digits 0 (digits_onto n []) = Some n.
Proof.
  induction n as [n IH] using (well_founded_induction N.lt_wf_0).
  destruct (n <? 10)%N eqn:Hn.
  - rewrite digits_onto_step, Hn. apply N.ltb_lt in Hn.
    cbn [read_digits]. rewrite (digit_value_digit Hn). reflexivity.
  - rewrite (digits_onto_snoc n Hn), read_digits_app, (IH _ (tenth_lt n Hn)).
    cbn [read_digits].
    rewrite digit_value_digit by (apply N.mod_lt; lia).
    f_equal. rewrite (N.div_mod n 10) at 3 by lia. lia.
Qed.

Lemma lstrip_blanks (m : nat) (s : text) :
  lstrip (repeat SPACE m ++ s) = lstrip s.
Proof. induction m as [| m IH]; [reflexivity | exact IH]. Qed.

(** What [str] writes, [int] reads back. *)
Lemma int_of_str_int (n : Z) : int_of (str_int n) = Some n.
Proof.
  unfold int_of, str_int.
  destruct (digits_onto_head (Z.abs_N n)) as (m & rest & Hm & E).
  pose proof (read_digits_onto (Z.abs_N n)) as R.
  destruct (n <? 0)%Z eqn:Hneg.
  - apply Z.ltb_lt in Hneg. cbn [lstrip].
    change (N.eqb (ord "-") SPACE) with false. cbv iota.
    rewrite N.eqb_refl, R, E. cbn [option_map]. f_equal.
    rewrite N2Z.inj_abs_N. lia.
  - apply Z.ltb_ge in Hneg. rewrite E in *. cbn [lstrip].
    assert (Hs : N.eqb (digit m) SPACE = false).
    { apply N.eqb_neq. unfold digit. change (ord "0") with 48%N.
      change SPACE with 32%N. lia. }
    assert (Hd : N.eqb (digit m) (ord "-") = false).
    { apply N.eqb_neq. unfold digit. change (ord "0") with 48%N.
      change (ord "-") with 45%N. lia. }
    rewrite Hs, Hd, R. cbn [option_map]. f_equal.
    rewrite N2Z.inj_abs_N. lia.
Qed.

Lemma int_of_format_d (width : nat) (n : Z) :
  int_of (format_d width n) = Some n.
Proof.
  pose proof (int_of_str_int n) as H. unfold int_of, format_d in *.
  rewrite lstrip_blanks. exact H.
Qed.

Lemma format_d_wide (width : nat) (n : Z) :
  width <= length (str_int n) -> format_d width n = str_int n.
Proof.
  intros H. unfold format_d.
  replace (width - length (str_int n)) with 0 by lia. reflexivity.
Qed.

Lemma length_str_int (k : nat) (n : Z) :
  (10 ^ Z.of_nat k <= Z.abs n)%Z ->
  (if (n <? 0)%Z then S k else k) < length (str_int n).
Proof.
  intros H.
  assert (Hk : k < length (digits_onto (Z.abs_N n) [])).
  { apply length_digits_onto. apply N2Z.inj_le.
    rewrite N2Z.inj_pow, nat_N_Z, N2Z.inj_abs_N. exact H. }
  unfold str_int. destruct (n <? 0)%Z; cbn [length]; lia.
Qed.

Lemma format_d_right_aligned (width : nat) (n : Z) :
  right_aligned width (str_int n) (format_d width n).
Proof.
  exists (repeat SPACE (width - length (str_int n))). unfold format_d.
  split; [reflexivity | split].
  - apply Forall_forall. intros c Hc. symmetry. exact (repeat_spec _ _ _ Hc).
  - rewrite length_app, repeat_length. lia.
Qed.

(** ** More on the two line functions *)

Lemma scan_flat_net (s : text) :
  scan_flat s = Counters (net "(" ")" s) (net "{" "}" s) (net "[" "]" s).
Proof. exact (scan_line_net s zero). Qed.

Lemma net_splitlines (o c : ascii) (s : text) :
  is_bracket (ord o) = true -> is_bracket (ord c) = true ->
  net o c (concat (splitlines s)) = net o c s.
Proof.
  intros Ho Hc. unfold net.
  rewrite !occurrences_splitlines by (apply bracket_not_linebreak; assumption).
  reflexivity.
Qed.

Lemma scan_flat_splitlines (s : text) :
  scan_flat (concat (splitlines s)) = scan_flat s.
Proof.
  rewrite !scan_flat_net, !net_splitlines by reflexivity. reflexivity.
Qed.

Lemma scan_flat_lines_of (t : text) : scan_flat (concat (lines_of t)) = scan_flat t.
Proof.
  change (scan_flat (concat (lines_of t))) with (final t).
  rewrite final_net, scan_flat_net. reflexivity.
Qed.

Lemma splitlines_nonempty (s : text) : s <> [] -> splitlines s <> [].
Proof.
  destruct s as [| c s]; [congruence |]. intros _.
  rewrite splitlines_cons.
  destruct (is_linebreak c); [| destruct (splitlines s)]; discriminate.
Qed.

Lemma last_cons_cons (a d x : char) (s : text) :
  last (a :: d :: s) x = last (d :: s) x.
Proof. reflexivity. Qed.


(** A line feed at the end of a text whose last line is not finished
    finishes that line and starts no other. *)
Lemma splitlines_final_newline (s : text) :
  s <> [] -> is_linebreak (last s LF) = false ->
  splitlines (s ++ [LF]) = splitlines s.
Proof.
  induction s as [| c | c d s IH1 IH2] using text_pair_ind; intros Hne Hlast.
  - congruence.
  - cbn [last] in Hlast. cbn [app]. rewrite !splitlines_cons, Hlast.
    reflexivity.
  - rewrite last_cons_cons in Hlast.
    change ((c :: d :: s) ++ [LF]) with (c :: d :: (s ++ [LF])).
    rewrite (splitlines_cons c (d :: s ++ [LF])), (splitlines_cons c (d :: s)).
    change (d :: s ++ [LF]) with ((d :: s) ++ [LF]).
    rewrite (IH2 ltac:(discriminate) Hlast).
    destruct (is_linebreak c); [| reflexivity].
    destruct (N.eqb c CR && N.eqb d LF) eqn:Hcrlf; [| reflexivity].
    destruct s as [| e s].
    + apply andb_prop in Hcrlf as [_ Hd]. apply N.eqb_eq in Hd. subst d.
      discriminate.
    + rewrite IH1; [reflexivity | discriminate | exact Hlast].
Qed.

(** Newline translation goes through a cut that is not inside a CR LF. *)
Lemma universal_newlines_app (pre : text) : forall post,
  ~ splits_crlf pre post ->
  universal_newlines (pre ++ post) =
  universal_newlines pre ++ universal_newlines post.
Proof.
  unfold splits_crlf.
  induction pre as [| c | c d s IH1 IH2] using text_pair_ind; intros post H.
  - reflexivity.
  - cbn [app last] in *. rewrite !universal_newlines_cons.
    destruct (N.eqb_spec c CR) as [-> |]; [| reflexivity].
    destruct post as [| d post]; [reflexivity |].
    cbn [hd] in H.
    destruct (N.eqb_spec d LF) as [-> |]; [tauto | reflexivity].
  - rewrite last_cons_cons in H.
    change ((c :: d :: s) ++ post) with (c :: d :: (s ++ post)).
    rewrite (universal_newlines_cons c (d :: s ++ post)),
            (universal_newlines_cons c (d :: s)).
    change (d :: s ++ post) with ((d :: s) ++ post).
    rewrite (IH2 post H).
    assert (H1 : universal_newlines (s ++ post) =
                 universal_newlines s ++ universal_newlines post).
    { apply IH1. destruct s; [cbn; intros [? _]; discriminate | exact H]. }
    rewrite H1.
    destruct (N.eqb c CR); [destruct (N.eqb d LF) |]; reflexivity.
Qed.

Lemma universal_newlines_no_CR (s : text) :
  Forall (fun x => x <> CR) (universal_newlines s).
Proof.
  induction s as [| c | c d s IH1 IH2] using text_pair_ind.
  - constructor.
  - rewrite universal_newlines_cons.
    destruct (N.eqb_spec c CR); repeat constructor; [discriminate | assumption].
  - rewrite universal_newlines_cons.
    destruct (N.eqb_spec c CR).
    + constructor; [discriminate |]. destruct (N.eqb d LF); assumption.
    + constructor; assumption.
Qed.



Lemma lines_of_final_newline (t : text) :
  t <> [] -> is_linebreak (last t LF) = false ->
  lines_of (t ++ [LF]) = lines_of t.
Proof.
  intros Hne Hlast. unfold lines_of.
  rewrite (app_removelast_last LF Hne) in *.
  set (t0 := removelast t) in *. set (x := last t LF) in *.
  rewrite last_last in Hlast.
  assert (Hx : universal_newlines (t0 ++ [x]) = universal_newlines t0 ++ [x]).
  { rewrite universal_newlines_app.
    - rewrite (universal_newlines_cons x []).
      destruct (N.eqb_spec x CR) as [E |]; [| reflexivity].
      rewrite E in Hlast. discriminate.
    - intros [_ H]. cbn in H. rewrite H in Hlast. discriminate. }
  rewrite universal_newlines_app.
  - change (universal_newlines [LF]) with [LF]. rewrite Hx.
    apply splitlines_final_newline.
    + destruct (universal_newlines t0); discriminate.
    + rewrite last_last. exact Hlast.
  - intros [H _]. rewrite last_last in H. rewrite H in Hlast. discriminate.
Qed.

(** ** One more character in the text *)

Section Insertion.

Variable c : char.





Hypothesis c_in_line : is_linebreak c = false.




Hypothesis c_plain : is_bracket c = false.



End Insertion.


(** * The claims *)

(** C1. When the file is read, the exit status is 0 exactly when the
    three counters that the loop returns are all 0, it is 2 otherwise,
    and the run ends in the [sys.exit] that carries this status. *)
Theorem C1_exit_code (w : world) (t : text) :
  files w INPUT = Holds t ->
  (forall e, fst (for_lines 1 (splitlines (universal_newlines t)) zero e)
             = inl (final t)) /\
  (status w = 0 <->
   paren (final t) = 0 /\ brace (final t) = 0 /\ brack (final t) = 0)%Z /\
  (status w <> 0 -> status w = 2)%Z /\
  fst (run w) = inr (SystemExit (status w)).
Proof.
  intros Hf. split; [| split; [| split]].
  - intros e. rewrite for_lines_run. reflexivity.
  - rewrite (status_holds w Hf), <- unbalanced_false.
    destruct (unbalanced (final t)); split; congruence.
  - rewrite (status_holds w Hf). destruct (unbalanced (final t)); congruence.
  - rewrite (status_holds w Hf), (run_holds w Hf).
    destruct (unbalanced (final t)); reflexivity.
Qed.

Lemma C1_exit_code_witness :
  let w := world_with (Holds (lit "f(x) { a[0] }")) in
  (status w = 0 <->
   paren (final (lit "f(x) { a[0] }")) = 0 /\
   brace (final (lit "f(x) { a[0] }")) = 0 /\
   brack (final (lit "f(x) { a[0] }")) = 0)%Z.
Proof.
  exact (proj1 (proj2 (C1_exit_code (world_with (Holds (lit "f(x) { a[0] }")))
                                    eq_refl))).
Defined.

(** C2. The record printed for the line at position [i] (counting from
    0, so it is numbered [i + 1]) shows, for each bracket kind, the opens
    minus the closes among all characters of the lines up to and
    including that one; a character that is none of the six brackets
    leaves the counters as they are. *)
Theorem C2_balance_invariant (w : world) (t l : text) (i : nat) :
  files w INPUT = Holds t ->
  nth_error (lines_of t) i = Some l ->
  nth_error (output w) i =
  Some (record (Z.of_nat i + 1)
               (Counters (net "(" ")" (concat (firstn (S i) (lines_of t))))
                         (net "{" "}" (concat (firstn (S i) (lines_of t))))
                         (net "[" "]" (concat (firstn (S i) (lines_of t)))))
               l ++ [LF]) /\
  (forall k c, is_bracket c = false -> step k c = k).
Proof.
  intros Hf Hl. split; [| exact step_other].
  rewrite (output_holds w Hf).
  rewrite nth_error_app1
    by (rewrite length_records; apply nth_error_Some; congruence).
  rewrite (nth_records _ _ 1%Z zero Hl), scan_line_net.
  cbn [paren brace brack zero]. rewrite Z.add_comm. reflexivity.
Qed.

Lemma C2_balance_invariant_witness :
  nth_error (output (world_with (Holds (lit "{[" ++ LF :: lit "]}")))) 1 =
  Some (lit "   2: paren=  0 brace=  0 brack=  0 | ]}" ++ [LF]).
Proof.
  exact (proj1 (@C2_balance_invariant
                  (world_with (Holds (lit "{[" ++ LF :: lit "]}")))
                  (lit "{[" ++ LF :: lit "]}") (lit "]}") 1 eq_refl eq_refl)).
Defined.

(** C3. The record of a line is made of its number flush right in four
    columns, then the three counters after that line, each behind its
    label and flush right in three columns, then the separator and the
    text of the line as [splitlines] returned it. *)
Theorem C3_record_format (w : world) (t l : text) (i : nat) :
  files w INPUT = Holds t ->
  nth_error (lines_of t) i = Some l ->
  let k := scan_line zero (concat (firstn (S i) (lines_of t))) in
  nth_error (output w) i =
  Some (format_d 4 (Z.of_nat i + 1)
          ++ lit ": paren=" ++ format_d 3 (paren k)
          ++ lit " brace=" ++ format_d 3 (brace k)
          ++ lit " brack=" ++ format_d 3 (brack k)
          ++ lit " | " ++ l ++ [LF]) /\
  right_aligned 4 (str_int (Z.of_nat i + 1)) (format_d 4 (Z.of_nat i + 1)) /\
  right_aligned 3 (str_int (paren k)) (format_d 3 (paren k)) /\
  right_aligned 3 (str_int (brace k)) (format_d 3 (brace k)) /\
  right_aligned 3 (str_int (brack k)) (format_d 3 (brack k)).
Proof.
  intros Hf Hl k. split; [| repeat split; apply format_d_right_aligned].
  rewrite (output_holds w Hf).
  rewrite nth_error_app1
    by (rewrite length_records; apply nth_error_Some; congruence).
  rewrite (nth_records _ _ 1%Z zero Hl). fold k. unfold record.
  rewrite (Z.add_comm 1). repeat rewrite <- app_assoc. reflexivity.
Qed.

Lemma C3_record_format_witness :
  nth_error (output (world_with (Holds (lit "fun f() {" ++ LF :: lit "}")))) 0
  = Some (lit "   1: paren=  0 brace=  1 brack=  0 | fun f() {" ++ [LF]).
Proof.
  exact (proj1 (@C3_record_format
                  (world_with (Holds (lit "fun f() {" ++ LF :: lit "}")))
                  (lit "fun f() {" ++ LF :: lit "}") (lit "fun f() {") 0
                  eq_refl eq_refl)).
Defined.

(** C4, as the code has it. After the records of the lines comes one
    more text, the summary: an empty line, then the label, then each
    counter behind its name, with single blanks between all of them and
    no equals sign. For an empty file that is
    [FINAL COUNTS: paren 0 brace 0 brack 0]. *)
Theorem C4_summary (w : world) (t : text) :
  files w INPUT = Holds t ->
  let k := final t in
  output w =
  records 1 zero (lines_of t)
    ++ [LF :: lit "FINAL COUNTS:"
          ++ SPACE :: lit "paren" ++ SPACE :: str_int (paren k)
          ++ SPACE :: lit "brace" ++ SPACE :: str_int (brace k)
          ++ SPACE :: lit "brack" ++ SPACE :: str_int (brack k) ++ [LF]] /\
  length (output w) = S (length (lines_of t)) /\
  (t = [] ->
   output w = [LF :: lit "FINAL COUNTS: paren 0 brace 0 brack 0" ++ [LF]]).
Proof.
  intros Hf k. rewrite (output_holds w Hf). split; [| split].
  - reflexivity.
  - rewrite length_app, length_records. cbn. lia.
  - intros ->. reflexivity.
Qed.

Lemma C4_summary_witness :
  output (world_with (Holds [])) =
  [LF :: lit "FINAL COUNTS: paren 0 brace 0 brack 0" ++ [LF]].
Proof.
  exact (proj2 (proj2 (@C4_summary (world_with (Holds [])) [] eq_refl)) eq_refl).
Defined.

(** C4, as it is written, fails on the empty file: the summary that is
    printed is the only output, and the text [paren=0 brace=0 brack=0]
    is nowhere in it. *)
Lemma C4_summary_has_no_equals_sign :
  output (world_with (Holds [])) =
    [LF :: lit "FINAL COUNTS: paren 0 brace 0 brack 0" ++ [LF]] /\
  contains (lit "paren=0 brace=0 brack=0")
           (concat (output (world_with (Holds [])))) = false.
Proof. split; reflexivity. Qed.

(** C5. When the file is missing, unreadable or not UTF-8, the
    exception of [read_text] is what ends the run: nothing has been
    printed, the file was opened once, no [sys.exit] was reached, and so
    the status is neither 2 nor 0. *)
Theorem C5_read_failure (w : world) (x : exn) :
  fst (read_text w INPUT (Effects [] [])) = inr x ->
  run w = (inr x, Effects [] [INPUT]) /\
  output w = [] /\
  (forall code, x <> SystemExit code) /\
  status w = 1%Z.
Proof.
  unfold output, status, run, main, bind, read_text.
  destruct (files w INPUT); cbn; intros [= <-];
    repeat split; discriminate.
Qed.

Lemma C5_read_failure_witness :
  run (world_with Absent) = (inr FileNotFoundError, Effects [] [INPUT]) /\
  run (world_with NotUTF8) = (inr UnicodeDecodeError, Effects [] [INPUT]).
Proof.
  split.
  - exact (proj1 (@C5_read_failure (world_with Absent) _ eq_refl)).
  - exact (proj1 (@C5_read_failure (world_with NotUTF8) _ eq_refl)).
Defined.




(** C7. The loop writes one record per line of [splitlines] and nothing
    else, so an empty file gets none; and [splitlines] makes no empty
    last line out of a line feed that ends the text. *)
Theorem C7_line_count (w : world) (t : text) :
  files w INPUT = Holds t ->
  (exists recs,
     output w = recs ++ [summary (final t)] /\
     length recs = length (splitlines (universal_newlines t)) /\
     (t = [] -> recs = [])) /\
  (t <> [] -> is_linebreak (last t LF) = false ->
   forall w', files w' INPUT = Holds (t ++ [LF]) ->
              length (output w') = length (output w)) /\
  (forall s, s <> [] -> is_linebreak (last s LF) = false ->
             splitlines (s ++ [LF]) = splitlines s) /\
  splitlines [] = [] /\ splitlines [LF] = [[]].
Proof.
  intros Hf. split; [| split; [| split; [| split]]].
  - exists (records 1 zero (lines_of t)). split; [| split].
    + apply (output_holds w Hf).
    + apply length_records.
    + intros ->. reflexivity.
  - intros Hne Hlast w' Hf'.
    rewrite (output_holds w Hf), (output_holds w' Hf').
    rewrite !length_app, !length_records.
    rewrite (lines_of_final_newline Hne Hlast). reflexivity.
  - exact splitlines_final_newline.
  - reflexivity.
  - reflexivity.
Qed.

Lemma C7_line_count_witness :
  exists recs,
    output (world_with (Holds (lit "a(" ++ LF :: lit ")" ++ [LF]))) =
      recs ++ [summary (final (lit "a(" ++ LF :: lit ")" ++ [LF]))] /\
    length recs = 2 /\
    (lit "a(" ++ LF :: lit ")" ++ [LF] = [] -> recs = []).
Proof.
  exact (proj1 (@C7_line_count
    (world_with (Holds (lit "a(" ++ LF :: lit ")" ++ [LF]))) _ eq_refl)).
Defined.



(** C9. The counters that the loop returns are those of one pass over
    the lines glued together, and those of one pass over the text
    itself, before or after newline translation: only the glued text
    matters, not where it was cut, and no line boundary moves a
    counter. *)
Theorem C9_line_division_irrelevant (t : text) :
  (forall i e, fst (for_lines i (lines_of t) zero e)
               = inl (scan_flat (concat (lines_of t)))) /\
  scan_flat (concat (lines_of t)) = scan_flat t /\
  (forall s, scan_flat (concat (splitlines s)) = scan_flat s) /\
  (forall ls1 ls2 i1 i2 e1 e2,
     concat ls1 = concat ls2 ->
     fst (for_lines i1 ls1 zero e1) = fst (for_lines i2 ls2 zero e2)) /\
  (forall c k, is_linebreak c = true -> step k c = k).
Proof.
  split; [| split; [| split; [| split]]].
  - intros i e. rewrite for_lines_run. reflexivity.
  - apply scan_flat_lines_of.
  - apply scan_flat_splitlines.
  - intros ls1 ls2 i1 i2 e1 e2 H. rewrite !for_lines_run, H. reflexivity.
  - intros c k H. apply step_other, linebreak_not_bracket, H.
Qed.

Lemma C9_line_division_irrelevant_witness :
  fst (for_lines 1 [lit "f("; lit "x)"] zero (Effects [] []))
  = fst (for_lines 1 [lit "f(x"; []; lit ")"] zero (Effects [] [])).
Proof.
  exact (proj1 (proj2 (proj2 (proj2 (C9_line_division_irrelevant []))))
           [lit "f("; lit "x)"] [lit "f(x"; []; lit ")"] 1%Z 1%Z
           (Effects [] []) (Effects [] []) eq_refl).
Defined.

(** C10. The widths 4 and 3 are lower bounds. A field always ends in the
    whole decimal text of its value, it is that text alone once the text
    fills the width, and the value can be read back from it; so a
    counter from 1000 up or from -100 down makes its field wider than
    three columns, and a line number from 10000 up makes its field wider
    than four. *)
Theorem C10_fields_never_truncate (width : nat) (n : Z) :
  right_aligned width (str_int n) (format_d width n) /\
  (width <= length (str_int n) -> format_d width n = str_int n) /\
  int_of (format_d width n) = Some n /\
  ((n <= -100 \/ 1000 <= n)%Z ->
   format_d 3 n = str_int n /\ 3 < length (format_d 3 n)) /\
  ((10000 <= n)%Z ->
   format_d 4 n = str_int n /\ 4 < length (format_d 4 n)).
Proof.
  split; [apply format_d_right_aligned |].
  split; [apply format_d_wide |].
  split; [apply int_of_format_d |].
  split.
  - intros H.
    assert (L : 3 < length (str_int n)).
    { destruct H as [H | H].
      + pose proof (@length_str_int 2 n) as L.
        replace (n <? 0)%Z with true in L by (symmetry; apply Z.ltb_lt; lia).
        apply L. change (10 ^ Z.of_nat 2)%Z with 100%Z. lia.
      + pose proof (@length_str_int 3 n) as L.
        replace (n <? 0)%Z with false in L by (symmetry; apply Z.ltb_ge; lia).
        apply L. change (10 ^ Z.of_nat 3)%Z with 1000%Z. lia. }
    rewrite format_d_wide by lia. split; [reflexivity | exact L].
  - intros H.
    assert (L : 4 < length (str_int n)).
    { pose proof (@length_str_int 4 n) as L.
      replace (n <? 0)%Z with false in L by (symmetry; apply Z.ltb_ge; lia).
      apply L. change (10 ^ Z.of_nat 4)%Z with 10000%Z. lia. }
    rewrite format_d_wide by lia. split; [reflexivity | exact L].
Qed.

Lemma C10_fields_never_truncate_witness :
  (format_d 3 (-100) = lit "-100" /\ 3 < length (format_d 3 (-100))) /\
  (format_d 4 12345 = lit "12345" /\ 4 < length (format_d 4 12345)) /\
  record 12345 (Counters 1000 (-100) 7) (lit "}") =
    lit "12345: paren=1000 brace=-100 brack=  7 | }".
Proof.
  split; [| split].
  - apply (proj1 (proj2 (proj2 (proj2 (C10_fields_never_truncate 3 (-100)))))).
    left. lia.
  - apply (proj2 (proj2 (proj2 (proj2 (C10_fields_never_truncate 4 12345))))).
    lia.
  - reflexivity.
Defined.

(** * Further properties of the script *)

(** ** Counting *)

Lemma occurrences_app (c : char) (s1 s2 : text) :
  occurrences c (s1 ++ s2) = (occurrences c s1 + occurrences c s2)%Z.
Proof.
  induction s1 as [| d s1 IH]; cbn [app occurrences]; [reflexivity | lia].
Qed.

Lemma occurrences_permutation (c : char) (s s' : text) :
  Permutation s s' -> occurrences c s = occurrences c s'.
Proof.
  induction 1 as [| d s s' _ IH | d e s | s s' s'' _ IH1 _ IH2];
    cbn [occurrences]; lia.
Qed.

Lemma status_zero_iff (w : world) (t : text) :
  files w INPUT = Holds t ->
  (status w = 0 <-> final t = zero)%Z.
Proof.
  intros Hf. rewrite (status_holds w Hf).
  pose proof (unbalanced_false (final t)) as U.
  destruct (final t) as [p b q]; cbn [paren brace brack] in U. split.
  - intros H. destruct (unbalanced (Counters p b q)); [discriminate |].
    destruct (proj1 U eq_refl) as (-> & -> & ->). reflexivity.
  - intros [= -> -> ->]. reflexivity.
Qed.

(** X1. The status says whether opens and closes are equally many, kind by
    kind, in the whole file; where they stand does not enter. *)
Theorem status_by_occurrences (w : world) (t : text) :
  files w INPUT = Holds t ->
  (status w = 0%Z <->
   occurrences (ord "(") t = occurrences (ord ")") t /\
   occurrences (ord "{") t = occurrences (ord "}") t /\
   occurrences (ord "[") t = occurrences (ord "]") t) /\
  (status w = 2%Z <->
   occurrences (ord "(") t <> occurrences (ord ")") t \/
   occurrences (ord "{") t <> occurrences (ord "}") t \/
   occurrences (ord "[") t <> occurrences (ord "]") t).
Proof.
  intros Hf. rewrite (status_holds w Hf).
  assert (U : unbalanced (final t) = false <->
              occurrences (ord "(") t = occurrences (ord ")") t /\
              occurrences (ord "{") t = occurrences (ord "}") t /\
              occurrences (ord "[") t = occurrences (ord "]") t).
  { rewrite unbalanced_false, final_net. unfold net.
    cbn [paren brace brack]. split; intros H; lia. }
  destruct (unbalanced (final t)).
  - assert (N : ~ (occurrences (ord "(") t = occurrences (ord ")") t /\
                   occurrences (ord "{") t = occurrences (ord "}") t /\
                   occurrences (ord "[") t = occurrences (ord "]") t)).
    { intros H. apply U in H. discriminate. }
    split; split; intros H; try discriminate; try reflexivity;
      [tauto | lia].
  - pose proof (proj1 U eq_refl) as P.
    split; split; intros H; try discriminate; try reflexivity;
      [exact P | lia].
Qed.

Lemma status_by_occurrences_witness :
  status (world_with (Holds (lit "a[0] = f(x)"))) = 0%Z.
Proof.
  apply (proj1 (@status_by_occurrences
                  (world_with (Holds (lit "a[0] = f(x)")))
                  (lit "a[0] = f(x)") eq_refl)).
  repeat split.
Defined.

(** X2. Shuffling the characters of the file changes neither the final
    counters nor the status: a close that comes before its open is
    accepted like any other. *)
Theorem status_ignores_order (w w' : world) (t t' : text) :
  Permutation t t' ->
  files w INPUT = Holds t -> files w' INPUT = Holds t' ->
  final t' = final t /\ status w' = status w /\
  last (output w') [] = last (output w) [].
Proof.
  intros Hp Hf Hf'.
  assert (E : final t' = final t).
  { rewrite !final_net. unfold net.
    rewrite !(fun c => occurrences_permutation c Hp). reflexivity. }
  rewrite (status_holds w Hf), (status_holds w' Hf').
  rewrite (output_holds w Hf), (output_holds w' Hf'), !last_last, E.
  repeat split.
Qed.

Lemma status_ignores_order_witness :
  status (world_with (Holds (lit ")("))) = status (world_with (Holds (lit "()")))
  /\ status (world_with (Holds (lit "()"))) = 0%Z.
Proof.
  split; [| reflexivity].
  exact (proj1 (proj2 (@status_ignores_order
    (world_with (Holds (lit "()"))) (world_with (Holds (lit ")(")))
    (lit "()") (lit ")(") (perm_swap (ord ")") (ord "(") [])
    eq_refl eq_refl))).
Defined.

(** X3. Two files one after the other: the final counters add up, so two
    files that pass make a file that passes, and a file that fails is
    repaired exactly by one whose counters are the opposite. *)
Theorem final_of_concatenation (w1 w2 w : world) (t1 t2 : text) :
  files w1 INPUT = Holds t1 -> files w2 INPUT = Holds t2 ->
  files w INPUT = Holds (t1 ++ t2) ->
  (paren (final (t1 ++ t2)) = paren (final t1) + paren (final t2) /\
   brace (final (t1 ++ t2)) = brace (final t1) + brace (final t2) /\
   brack (final (t1 ++ t2)) = brack (final t1) + brack (final t2))%Z /\
  (status w1 = 0 -> status w2 = 0 -> status w = 0)%Z /\
  (status w1 = 0 -> status w = status w2)%Z.
Proof.
  intros Hf1 Hf2 Hf.
  assert (E : (paren (final (t1 ++ t2)) = paren (final t1) + paren (final t2) /\
               brace (final (t1 ++ t2)) = brace (final t1) + brace (final t2) /\
               brack (final (t1 ++ t2)) = brack (final t1) + brack (final t2))%Z).
  { rewrite !final_net. unfold net. cbn [paren brace brack].
    rewrite !occurrences_app. lia. }
  split; [exact E |].
  assert (Z1 : (status w1 = 0)%Z -> final (t1 ++ t2) = final t2).
  { intros H1. apply (status_zero_iff w1 Hf1) in H1.
    rewrite H1 in E. cbn [paren brace brack zero] in E.
    destruct E as (Ep & Eb & Eq).
    destruct (final (t1 ++ t2)), (final t2). cbn [paren brace brack] in *.
    f_equal; lia. }
  split.
  - intros H1 H2. apply (status_zero_iff w Hf). rewrite (Z1 H1).
    apply (status_zero_iff w2 Hf2), H2.
  - intros H1. rewrite (status_holds w Hf), (status_holds w2 Hf2), (Z1 H1).
    reflexivity.
Qed.

Lemma final_of_concatenation_witness :
  status (world_with (Holds ((lit "f() {" ++ lit "}") ++ lit " g(")))
  = status (world_with (Holds (lit " g("))).
Proof.
  exact (proj2 (proj2 (@final_of_concatenation
    (world_with (Holds (lit "f() {" ++ lit "}")))
    (world_with (Holds (lit " g(")))
    (world_with (Holds ((lit "f() {" ++ lit "}") ++ lit " g(")))
    (lit "f() {" ++ lit "}") (lit " g(") eq_refl eq_refl eq_refl)) eq_refl).
Defined.

(** ** What the loop reads *)

Lemma filter_kept_cons (c : char) (s : text) :
  filter kept (c :: s) = if is_linebreak c then filter kept s
                         else c :: filter kept s.
Proof. unfold kept. cbn [filter]. destruct (is_linebreak c); reflexivity. Qed.

Lemma concat_splitlines (s : text) : concat (splitlines s) = filter kept s.
Proof.
  induction s as [| c | c d s IH1 IH2] using text_pair_ind.
  - reflexivity.
  - rewrite splitlines_cons, filter_kept_cons.
    destruct (is_linebreak c); reflexivity.
  - rewrite splitlines_cons, filter_kept_cons.
    destruct (is_linebreak c) eqn:Hc.
    + cbn [concat app].
      destruct (N.eqb c CR && N.eqb d LF) eqn:Hcrlf; [| exact IH2].
      apply andb_prop in Hcrlf as [_ Hd]. apply N.eqb_eq in Hd. subst d.
      rewrite IH1. reflexivity.
    + rewrite concat_push, IH2. reflexivity.
Qed.

Lemma filter_kept_universal_newlines (s : text) :
  filter kept (universal_newlines s) = filter kept s.
Proof.
  induction s as [| c | c d s IH1 IH2] using text_pair_ind.
  - reflexivity.
  - rewrite universal_newlines_cons.
    destruct (N.eqb_spec c CR) as [-> |]; reflexivity.
  - rewrite universal_newlines_cons.
    destruct (N.eqb_spec c CR) as [-> |].
    + rewrite (filter_kept_cons LF), (filter_kept_cons CR).
      change (is_linebreak LF) with true. change (is_linebreak CR) with true.
      cbv iota.
      destruct (N.eqb_spec d LF) as [-> |]; [| exact IH2].
      rewrite IH1, (filter_kept_cons LF). reflexivity.
    + rewrite !(filter_kept_cons c), IH2. reflexivity.
Qed.

Lemma splitlines_kept (s : text) :
  Forall (Forall (fun c => is_linebreak c = false)) (splitlines s).
Proof.
  assert (Hpush : forall c ls,
    is_linebreak c = false ->
    Forall (Forall (fun c => is_linebreak c = false)) ls ->
    Forall (Forall (fun c => is_linebreak c = false)) (push c ls)).
  { intros c ls Hc [| l ls' Hl Hls]; cbn [push]; repeat constructor; auto. }
  induction s as [| c | c d s IH1 IH2] using text_pair_ind.
  - constructor.
  - rewrite splitlines_cons.
    destruct (is_linebreak c) eqn:Hc; repeat constructor; exact Hc.
  - rewrite splitlines_cons. destruct (is_linebreak c) eqn:Hc.
    + constructor; [constructor |].
      destruct (N.eqb c CR && N.eqb d LF); assumption.
    + apply Hpush; assumption.
Qed.

Lemma length_splitlines (s : text) : length (splitlines s) <= length s.
Proof.
  induction s as [| c | c d s IH1 IH2] using text_pair_ind.
  - reflexivity.
  - rewrite splitlines_cons. destruct (is_linebreak c); cbn; lia.
  - rewrite splitlines_cons. destruct (is_linebreak c).
    + destruct (N.eqb c CR && N.eqb d LF); cbn [length] in *; lia.
    + destruct (splitlines (d :: s)); cbn [push length] in *; lia.
Qed.

Lemma length_universal_newlines (s : text) :
  length (universal_newlines s) <= length s.
Proof.
  induction s as [| c | c d s IH1 IH2] using text_pair_ind.
  - reflexivity.
  - rewrite universal_newlines_cons. destruct (N.eqb c CR); cbn; lia.
  - rewrite universal_newlines_cons. destruct (N.eqb c CR).
    + destruct (N.eqb d LF); cbn [length] in *; lia.
    + cbn [length] in *. lia.
Qed.

(** X4. The characters that the inner loop sees are those of the file that
    are no line boundary, each once and in the order of the file; no
    line holds a boundary, and there are no more lines than
    characters. *)
Theorem scanned_characters (t : text) :
  concat (lines_of t) = filter kept t /\
  Forall (Forall (fun c => is_linebreak c = false)) (lines_of t) /\
  length (lines_of t) <= length t.
Proof.
  unfold lines_of. split; [| split].
  - rewrite concat_splitlines. apply filter_kept_universal_newlines.
  - apply splitlines_kept.
  - pose proof (length_splitlines (universal_newlines t)).
    pose proof (length_universal_newlines t). lia.
Qed.

(** ** How large the counters get *)

Lemma weight_step (k : counters) (c : char) :
  (weight (step k c) <= weight k + (if is_bracket c then 1 else 0))%Z.
Proof.
  destruct (is_bracket c) eqn:Hb.
  - unfold step, weight.
    repeat match goal with
           | |- context [if ?b then _ else _] => destruct b
           end; cbn [paren brace brack]; lia.
  - rewrite step_other by exact Hb. lia.
Qed.

Lemma weight_scan_line (s : text) : forall k,
  (weight (scan_line k s) <= weight k + Z.of_nat (length (filter is_bracket s)))%Z.
Proof.
  induction s as [| c s IH]; intros k.
  - cbn. lia.
  - change (scan_line k (c :: s)) with (scan_line (step k c) s).
    specialize (IH (step k c)). pose proof (weight_step k c) as Hs.
    cbn [filter]. destruct (is_bracket c); cbn [length]; lia.
Qed.

Lemma length_filter_le (f : char -> bool) (s : text) :
  length (filter f s) <= length s.
Proof.
  induction s as [| c s IH]; cbn [filter]; [| destruct (f c)]; cbn [length]; lia.
Qed.

Lemma filter_bracket_kept (s : text) :
  filter is_bracket (filter kept s) = filter is_bracket s.
Proof.
  induction s as [| c s IH]; [reflexivity |].
  rewrite filter_kept_cons. destruct (is_linebreak c) eqn:Hc.
  - cbn [filter]. rewrite (linebreak_not_bracket c Hc). exact IH.
  - cbn [filter]. rewrite IH. reflexivity.
Qed.

Lemma brackets_firstn (ls : list text) (m : nat) :
  length (filter is_bracket (concat (firstn m ls)))
  <= length (filter is_bracket (concat ls)).
Proof.
  rewrite <- (firstn_skipn m ls) at 2.
  rewrite concat_app, filter_app, length_app. lia.
Qed.

(** X5. No counter that is printed is further from zero than the file has
    brackets: the three distances together stay within the number of
    bracket characters, in every record and in the summary. *)
Theorem counters_bounded (w : world) (t l : text) (i : nat) :
  files w INPUT = Holds t ->
  nth_error (lines_of t) i = Some l ->
  (exists k,
     nth_error (output w) i = Some (record (Z.of_nat i + 1) k l ++ [LF]) /\
     (weight k <= Z.of_nat (length (filter is_bracket t)))%Z) /\
  (weight (final t) <= Z.of_nat (length (filter is_bracket t)))%Z /\
  length (filter is_bracket t) <= length t.
Proof.
  intros Hf Hl.
  assert (Hall : forall s, (weight (scan_flat s)
                            <= Z.of_nat (length (filter is_bracket s)))%Z).
  { intros s. apply (weight_scan_line s zero). }
  split; [| split].
  - exists (scan_line zero (concat (firstn (S i) (lines_of t)))). split.
    + rewrite (output_holds w Hf).
      rewrite nth_error_app1
        by (rewrite length_records; apply nth_error_Some; congruence).
      rewrite (nth_records _ _ 1%Z zero Hl), (Z.add_comm 1). reflexivity.
    + pose proof (weight_scan_line (concat (firstn (S i) (lines_of t))) zero)
        as Hk.
      change (weight zero) with 0%Z in Hk.
      pose proof (brackets_firstn (lines_of t) (S i)) as Hm.
      unfold lines_of in Hm at 2.
      rewrite concat_splitlines, filter_kept_universal_newlines,
        filter_bracket_kept in Hm.
      lia.
  - pose proof (Hall t) as Ht. rewrite <- scan_flat_lines_of in Ht.
    exact Ht.
  - apply length_filter_le.
Qed.

Lemma counters_bounded_witness :
  (weight (final (lit "f(a[1], {x})")) <= 6)%Z.
Proof.
  exact (proj1 (proj2 (@counters_bounded
    (world_with (Holds (lit "f(a[1], {x})"))) (lit "f(a[1], {x})")
    (lit "f(a[1], {x})") 0 eq_refl eq_refl))).
Defined.

(** ** The output, read line by line *)

Lemma printable_kept (c : char) :
  (32 <= c <= 126)%N -> is_linebreak c = false.
Proof.
  intros Hc. unfold is_linebreak, line_boundaries. cbn [existsb].
  repeat match goal with
         | |- context [N.eqb c ?x] =>
             replace (N.eqb c x) with false by (symmetry; apply N.eqb_neq; lia)
         end.
  reflexivity.
Qed.

Lemma digits_onto_range (n : N) :
  Forall (fun c => (48 <= c <= 57)%N) (digits_onto n []).
Proof.
  assert (Hd : forall m, (m < 10)%N -> (48 <= digit m <= 57)%N).
  { intros m Hm. unfold digit. change (ord "0") with 48%N. lia. }
  induction n as [n IH] using (well_founded_induction N.lt_wf_0).
  destruct (n <? 10)%N eqn:Hn.
  - rewrite digits_onto_step, Hn. apply N.ltb_lt in Hn.
    repeat constructor; apply Hd, Hn.
  - rewrite (digits_onto_snoc n Hn). apply Forall_app. split.
    + apply IH, tenth_lt, Hn.
    + repeat constructor; apply Hd, N.mod_lt; lia.
Qed.

Lemma str_int_kept (n : Z) :
  Forall (fun c => is_linebreak c = false) (str_int n).
Proof.
  assert (H : Forall (fun c => is_linebreak c = false)
                     (digits_onto (Z.abs_N n) [])).
  { eapply Forall_impl; [| apply digits_onto_range].
    intros c Hc. cbv beta in Hc. apply printable_kept. lia. }
  unfold str_int. destruct (n <? 0)%Z; [constructor; [reflexivity |] |];
    exact H.
Qed.

Lemma format_d_kept (width : nat) (n : Z) :
  Forall (fun c => is_linebreak c = false) (format_d width n).
Proof.
  unfold format_d. apply Forall_app. split; [| apply str_int_kept].
  apply Forall_forall. intros c Hc. apply repeat_spec in Hc. subst c.
  reflexivity.
Qed.

Lemma record_kept (i : Z) (k : counters) (l : text) :
  Forall (fun c => is_linebreak c = false) l ->
  Forall (fun c => is_linebreak c = false) (record i k l).
Proof.
  intros Hl. unfold record.
  repeat first [apply format_d_kept | exact Hl | apply Forall_app; split];
    cbn [lit list_ascii_of_string map]; repeat constructor.
Qed.

(** A text without boundaries, then a line feed: one line, and the rest
    is split on its own. *)
Lemma splitlines_line (body rest : text) :
  Forall (fun c => is_linebreak c = false) body ->
  splitlines (body ++ LF :: rest) = body :: splitlines rest.
Proof.
  induction 1 as [| c body Hc _ IH].
  - cbn [app]. rewrite splitlines_cons. change (is_linebreak LF) with true.
    cbv iota. destruct rest; reflexivity.
  - cbn [app]. rewrite splitlines_cons, Hc, IH. reflexivity.
Qed.

Lemma splitlines_records (lines : list text) :
  Forall (Forall (fun c => is_linebreak c = false)) lines ->
  forall i k rest,
    splitlines (concat (records i k lines) ++ rest) =
    map (@removelast char) (records i k lines) ++ splitlines rest.
Proof.
  induction 1 as [| l lines Hl _ IH]; intros i k rest; [reflexivity |].
  cbn [records concat map]. rewrite removelast_last, <- !app_assoc.
  cbn [app]. rewrite (splitlines_line _ (record_kept i (scan_line k l) Hl)).
  rewrite IH. reflexivity.
Qed.

Lemma map_removelast_records (lines : list text) : forall i k,
  map (fun b => b ++ [LF]) (map (@removelast char) (records i k lines))
  = records i k lines.
Proof.
  induction lines as [| l lines IH]; intros i k; [reflexivity |].
  cbn [records map]. rewrite removelast_last, IH. reflexivity.
Qed.

Lemma splitlines_summary (k : counters) :
  splitlines (summary k) =
  [[]; lit "FINAL COUNTS:" ++ lit " paren " ++ str_int (paren k)
         ++ lit " brace " ++ str_int (brace k)
         ++ lit " brack " ++ str_int (brack k)].
Proof.
  set (body := lit "FINAL COUNTS:" ++ _).
  assert (E : summary k = [] ++ LF :: (body ++ LF :: [])).
  { unfold summary, body. repeat rewrite <- app_assoc. reflexivity. }
  assert (Hb : Forall (fun c => is_linebreak c = false) body).
  { unfold body.
    repeat first [apply str_int_kept | apply Forall_app; split];
      cbn [lit list_ascii_of_string map]; repeat constructor. }
  rewrite E, (@splitlines_line [] _ (Forall_nil _)), (splitlines_line _ Hb).
  reflexivity.
Qed.

(** X6. Reading standard output back with [splitlines] gives one line per
    record, then an empty line, then the summary line, and nothing else:
    no record runs over two lines of output, whatever the file holds. *)
Theorem output_reads_back (w : world) (t : text) :
  files w INPUT = Holds t ->
  exists (bodies : list text) (tail : text),
    splitlines (concat (output w)) = bodies ++ [[]; tail] /\
    map (fun b => b ++ [LF]) bodies = removelast (output w) /\
    LF :: tail ++ [LF] = last (output w) [] /\
    length bodies = length (lines_of t).
Proof.
  intros Hf. rewrite (output_holds w Hf).
  set (k := final t).
  exists (map (@removelast char) (records 1 zero (lines_of t))),
         (lit "FINAL COUNTS:" ++ lit " paren " ++ str_int (paren k)
            ++ lit " brace " ++ str_int (brace k)
            ++ lit " brack " ++ str_int (brack k)).
  rewrite removelast_last, last_last, map_removelast_records.
  rewrite length_map, length_records.
  split; [| split; [| split]]; try reflexivity.
  - rewrite concat_app. cbn [concat]. rewrite app_nil_r.
    rewrite splitlines_records
      by (unfold lines_of; apply splitlines_kept).
    rewrite splitlines_summary. reflexivity.
  - unfold summary. repeat rewrite <- app_assoc. reflexivity.
Qed.

Lemma output_reads_back_witness :
  splitlines (concat (output (world_with (Holds (lit "a(" ++ LF :: lit ")")))))
  = [lit "   1: paren=  1 brace=  0 brack=  0 | a(";
     lit "   2: paren=  0 brace=  0 brack=  0 | )";
     [];
     lit "FINAL COUNTS: paren 0 brace 0 brack 0"] /\
  exists bodies tail,
    splitlines (concat (output (world_with (Holds (lit "a(" ++ LF :: lit ")")))))
    = bodies ++ [[]; tail] /\
    map (fun b => b ++ [LF]) bodies =
      removelast (output (world_with (Holds (lit "a(" ++ LF :: lit ")")))) /\
    LF :: tail ++ [LF] =
      last (output (world_with (Holds (lit "a(" ++ LF :: lit ")")))) [] /\
    length bodies = length (lines_of (lit "a(" ++ LF :: lit ")")).
Proof.
  split; [reflexivity |].
  exact (@output_reads_back
           (world_with (Holds (lit "a(" ++ LF :: lit ")"))) _ eq_refl).
Defined.

(** ** The columns of a record *)

(** A number below [10 ^ (k + 1)] has at most [k + 1] digits. *)
Lemma length_digits_onto_le (k : nat) : forall n : N,
  (n < 10 ^ N.of_nat (S k))%N -> length (digits_onto n []) <= S k.
Proof.
  induction k as [| k IH]; intros n Hn.
  - change (10 ^ N.of_nat 1)%N with 10%N in Hn.
    rewrite digits_onto_step.
    replace (n <? 10)%N with true by (symmetry; apply N.ltb_lt; exact Hn).
    cbn. lia.
  - destruct (n <? 10)%N eqn:Hlt.
    + rewrite digits_onto_step, Hlt. cbn. lia.
    + rewrite (digits_onto_snoc n Hlt), length_app. cbn [length].
      rewrite (Nat2N.inj_succ (S k)), N.pow_succ_r' in Hn.
      assert (n / 10 < 10 ^ N.of_nat (S k))%N
        by (apply N.Div0.div_lt_upper_bound; lia).
      specialize (IH (n / 10)%N H). lia.
Qed.

Lemma length_str_int_le (k : nat) (n : Z) :
  (- 10 ^ Z.of_nat k < n < 10 ^ Z.of_nat (S k))%Z ->
  1 <= length (str_int n) <= S k.
Proof.
  intros [Hlo Hhi]. unfold str_int.
  destruct (digits_onto_head (Z.abs_N n)) as (m & rest & _ & E).
  destruct (n <? 0)%Z eqn:Hneg.
  - apply Z.ltb_lt in Hneg. cbn [length]. split; [lia |].
    destruct k as [| k]; [change (10 ^ Z.of_nat 0)%Z with 1%Z in Hlo; lia |].
    apply le_n_S, length_digits_onto_le. apply N2Z.inj_lt.
    rewrite N2Z.inj_pow, nat_N_Z, N2Z.inj_abs_N. lia.
  - apply Z.ltb_ge in Hneg. split; [rewrite E; cbn; lia |].
    apply length_digits_onto_le. apply N2Z.inj_lt.
    rewrite N2Z.inj_pow, nat_N_Z, N2Z.inj_abs_N. lia.
Qed.

Lemma length_format_d (width : nat) (n : Z) :
  length (format_d width n) = Nat.max width (length (str_int n)).
Proof. unfold format_d. rewrite length_app, repeat_length. lia. Qed.

Lemma record_split (i : Z) (k : counters) (l : text) :
  record i k l = record i k [] ++ l.
Proof.
  unfold record. rewrite app_nil_r. repeat rewrite <- app_assoc. reflexivity.
Qed.

Lemma length_record_prefix (i : Z) (k : counters) :
  length (record i k []) =
  length (format_d 4 i) + length (format_d 3 (paren k))
  + length (format_d 3 (brace k)) + length (format_d 3 (brack k)) + 25.
Proof.
  unfold record. rewrite !length_app. cbn [length lit list_ascii_of_string map].
  lia.
Qed.

(** X7. The text of the line starts after at least 38 columns, and after
    exactly 38 as long as the line number has at most four digits and
    each counter lies between -99 and 999: up to there the records line
    up, and the line can be cut out of its record at a fixed place. *)
Theorem record_columns (i : Z) (k : counters) (l : text) :
  38 + length l <= length (record i k l) /\
  ((1 <= i <= 9999)%Z ->
   (-99 <= paren k <= 999)%Z -> (-99 <= brace k <= 999)%Z ->
   (-99 <= brack k <= 999)%Z ->
   length (record i k l) = 38 + length l /\ skipn 38 (record i k l) = l).
Proof.
  rewrite (record_split i k l), length_app, length_record_prefix.
  rewrite !length_format_d. split; [lia |].
  intros Hi Hp Hb Hq.
  assert (F : forall n, (-99 <= n <= 999)%Z -> length (str_int n) <= 3).
  { intros n Hn. apply (@length_str_int_le 2 n).
    change (10 ^ Z.of_nat 2)%Z with 100%Z.
    change (10 ^ Z.of_nat 3)%Z with 1000%Z. lia. }
  assert (Fi : length (str_int i) <= 4).
  { apply (@length_str_int_le 3 i).
    change (10 ^ Z.of_nat 3)%Z with 1000%Z.
    change (10 ^ Z.of_nat 4)%Z with 10000%Z. lia. }
  pose proof (F _ Hp). pose proof (F _ Hb). pose proof (F _ Hq).
  assert (L : length (record i k []) = 38).
  { rewrite length_record_prefix, !length_format_d. lia. }
  split; [lia |].
  rewrite skipn_app, L, Nat.sub_diag.
  rewrite (skipn_all2 (record i k [])) by lia. reflexivity.
Qed.

Lemma record_columns_witness :
  skipn 38 (record 9999 (Counters 999 (-99) 0) (lit "val x = y }")) =
  lit "val x = y }".
Proof.
  apply (proj2 (@record_columns 9999 (Counters 999 (-99) 0)
                                (lit "val x = y }")));
    cbn [paren brace brack]; lia.
Defined.

(** ** The three ways a run can end *)



(** ** A file continued after a finished line *)

Lemma records_app (ls1 ls2 : list text) : forall i k,
  records i k (ls1 ++ ls2) =
  records i k ls1
    ++ records (i + Z.of_nat (length ls1)) (scan_line k (concat ls1)) ls2.
Proof.
  induction ls1 as [| l ls1 IH]; intros i k.
  - cbn. rewrite Z.add_0_r. reflexivity.
  - cbn [app records concat length]. rewrite IH, scan_line_app.
    replace (i + 1 + Z.of_nat (length ls1))%Z
      with (i + Z.of_nat (S (length ls1)))%Z by lia.
    reflexivity.
Qed.

Lemma push_app (c : char) (ls1 ls2 : list text) :
  ls1 <> [] -> push c (ls1 ++ ls2) = push c ls1 ++ ls2.
Proof. destruct ls1; [congruence | reflexivity]. Qed.

(** What follows a line feed is split as if it stood alone. *)
Lemma splitlines_after_LF (s1 : text) : forall s2,
  splitlines (s1 ++ LF :: s2) = splitlines (s1 ++ [LF]) ++ splitlines s2.
Proof.
  assert (B : forall s2, splitlines (LF :: s2) = [] :: splitlines s2).
  { intros s2. rewrite splitlines_cons. change (is_linebreak LF) with true.
    cbv iota. destruct s2; reflexivity. }
  induction s1 as [| c | c d s IH1 IH2] using text_pair_ind; intros s2.
  - cbn [app]. rewrite B. reflexivity.
  - cbn [app]. rewrite (splitlines_cons c (LF :: s2)), (splitlines_cons c [LF]).
    rewrite N.eqb_refl, andb_true_r, B.
    destruct (is_linebreak c); [destruct (N.eqb c CR) |]; reflexivity.
  - change ((c :: d :: s) ++ LF :: s2) with (c :: d :: (s ++ LF :: s2)).
    change ((c :: d :: s) ++ [LF]) with (c :: d :: (s ++ [LF])).
    rewrite (splitlines_cons c (d :: s ++ LF :: s2)),
            (splitlines_cons c (d :: s ++ [LF])).
    specialize (IH2 s2). cbn [app] in IH2. rewrite IH1, IH2.
    destruct (is_linebreak c).
    + destruct (N.eqb c CR && N.eqb d LF); reflexivity.
    + apply push_app. apply (@splitlines_nonempty (d :: s ++ [LF])).
      discriminate.
Qed.

Lemma universal_newlines_ends_LF (t : text) :
  exists s, universal_newlines (t ++ [LF]) = s ++ [LF].
Proof.
  induction t as [| c | c d t IH1 IH2] using text_pair_ind.
  - exists []. reflexivity.
  - cbn [app]. rewrite universal_newlines_cons, N.eqb_refl.
    destruct (N.eqb c CR); [exists [] | exists [c]]; reflexivity.
  - change ((c :: d :: t) ++ [LF]) with (c :: d :: (t ++ [LF])).
    rewrite universal_newlines_cons.
    destruct IH1 as [s1 E1]. destruct IH2 as [s2 E2]. cbn [app] in E2.
    destruct (N.eqb c CR).
    + destruct (N.eqb d LF); [exists (LF :: s1) | exists (LF :: s2)];
        cbn [app]; congruence.
    + exists (c :: s2). cbn [app]. congruence.
Qed.

Lemma lines_of_after_LF (t1 t2 : text) :
  lines_of ((t1 ++ [LF]) ++ t2) = lines_of (t1 ++ [LF]) ++ lines_of t2.
Proof.
  unfold lines_of. rewrite universal_newlines_app.
  - destruct (universal_newlines_ends_LF t1) as [s E]. rewrite E.
    rewrite <- app_assoc. cbn [app]. apply splitlines_after_LF.
  - intros [H _]. rewrite last_last in H. discriminate.
Qed.

(** X9. Text added after a finished line leaves the records before it as
    they were; its own records continue the numbering and start from
    the counters reached so far. When the first part is balanced, they
    show the counters that the added text would show alone. *)
Theorem continuation (w1 w2 w : world) (t1 t2 : text) :
  files w1 INPUT = Holds (t1 ++ [LF]) ->
  files w2 INPUT = Holds t2 ->
  files w INPUT = Holds ((t1 ++ [LF]) ++ t2) ->
  let n := length (lines_of (t1 ++ [LF])) in
  firstn n (output w) = removelast (output w1) /\
  length (output w) = n + length (output w2) /\
  (status w1 = 0%Z ->
   forall i l, nth_error (lines_of t2) i = Some l ->
     exists k,
       nth_error (output w2) i
         = Some (record (Z.of_nat i + 1) k l ++ [LF]) /\
       nth_error (output w) (n + i)
         = Some (record (Z.of_nat (n + i) + 1) k l ++ [LF])).
Proof.
  intros Hf1 Hf2 Hf n.
  rewrite (output_holds w Hf), (output_holds w1 Hf1), (output_holds w2 Hf2).
  rewrite lines_of_after_LF, records_app. fold n.
  assert (Hn : length (records 1 zero (lines_of (t1 ++ [LF]))) = n)
    by apply length_records.
  split; [| split].
  - rewrite removelast_last, <- app_assoc, <- Hn, firstn_app, firstn_all.
    rewrite Nat.sub_diag. cbn [firstn]. apply app_nil_r.
  - rewrite !length_app, !length_records. cbn [length]. lia.
  - intros H1 i l Hl. apply (status_zero_iff w1 Hf1) in H1.
    change (scan_line zero (concat (lines_of (t1 ++ [LF]))))
      with (final (t1 ++ [LF])).
    rewrite H1.
    exists (scan_line zero (concat (firstn (S i) (lines_of t2)))).
    assert (Hi : i < length (lines_of t2))
      by (apply nth_error_Some; congruence).
    split.
    + rewrite nth_error_app1 by (rewrite length_records; exact Hi).
      rewrite (nth_records _ _ 1%Z zero Hl), (Z.add_comm 1). reflexivity.
    + rewrite <- app_assoc, nth_error_app2 by lia.
      rewrite Hn, Nat.add_comm, Nat.add_sub.
      rewrite nth_error_app1 by (rewrite length_records; exact Hi).
      rewrite (nth_records _ _ _ zero Hl).
      replace (1 + Z.of_nat n + Z.of_nat i)%Z
        with (Z.of_nat (i + n) + 1)%Z by lia.
      reflexivity.
Qed.

Lemma continuation_witness :
  firstn 1 (output (world_with (Holds ((lit "f()" ++ [LF]) ++ lit "g("))))
  = removelast (output (world_with (Holds (lit "f()" ++ [LF])))) /\
  nth_error (output (world_with (Holds ((lit "f()" ++ [LF]) ++ lit "g(")))) 1
  = Some (lit "   2: paren=  1 brace=  0 brack=  0 | g(" ++ [LF]).
Proof.
  pose proof (@continuation
    (world_with (Holds (lit "f()" ++ [LF])))
    (world_with (Holds (lit "g(")))
    (world_with (Holds ((lit "f()" ++ [LF]) ++ lit "g(")))
    (lit "f()") (lit "g(") eq_refl eq_refl eq_refl) as H.
  split; [exact (proj1 H) | reflexivity].
Defined.

(** ** Line ends *)

Lemma universal_newlines_fixed (s : text) :
  Forall (fun x => x <> CR) s -> universal_newlines s = s.
Proof.
  induction 1 as [| c s Hc _ IH]; [reflexivity |].
  rewrite universal_newlines_cons.
  destruct (N.eqb_spec c CR); [contradiction | rewrite IH; reflexivity].
Qed.

(** X10. A file with CR LF or lone CR line ends gives the very run of the
    same file with LF line ends: the same records, the same summary, the
    same status. *)
Theorem line_ends_irrelevant (w w' : world) (t : text) :
  files w INPUT = Holds t ->
  files w' INPUT = Holds (universal_newlines t) ->
  run w' = run w /\ output w' = output w /\ status w' = status w.
Proof.
  intros Hf Hf'.
  assert (E : lines_of (universal_newlines t) = lines_of t).
  { unfold lines_of.
    rewrite (universal_newlines_fixed (universal_newlines_no_CR t)).
    reflexivity. }
  assert (R : run w' = run w).
  { rewrite (run_holds w Hf), (run_holds w' Hf'). unfold final. rewrite E.
    reflexivity. }
  unfold output, status. rewrite R. repeat split.
Qed.

Lemma line_ends_irrelevant_witness :
  output (world_with (Holds (lit "{" ++ LF :: lit "}" ++ [LF])))
  = output (world_with (Holds (lit "{" ++ CR :: LF :: lit "}" ++ [CR]))).
Proof.
  exact (proj1 (proj2 (@line_ends_irrelevant
    (world_with (Holds (lit "{" ++ CR :: LF :: lit "}" ++ [CR])))
    (world_with (Holds (lit "{" ++ LF :: lit "}" ++ [LF])))
    (lit "{" ++ CR :: LF :: lit "}" ++ [CR]) eq_refl eq_refl))).
Defined.

(** ** Lines without brackets *)

Lemma scan_line_plain (l : text) : forall k,
  filter is_bracket l = [] -> scan_line k l = k.
Proof.
  induction l as [| c l IH]; intros k H; [reflexivity |].
  cbn [filter] in H. destruct (is_bracket c) eqn:Hc; [discriminate |].
  change (scan_line k (c :: l)) with (scan_line (step k c) l).
  rewrite step_other by exact Hc. apply IH, H.
Qed.

Lemma firstn_succ_nth (ls : list text) : forall n l,
  nth_error ls n = Some l -> firstn (S n) ls = firstn n ls ++ [l].
Proof.
  induction ls as [| l0 ls IH]; intros [| n] l H; try discriminate.
  - cbn in H. injection H as ->. reflexivity.
  - cbn [nth_error] in H. cbn [firstn]. rewrite (IH n l H) at 1. reflexivity.
Qed.

(** X11. A line without any bracket still gets its record, and the record
    repeats the counters of the line before it (zeros, if it is the
    first line). *)
Theorem plain_line_repeats (w : world) (t l : text) (i : nat) :
  files w INPUT = Holds t ->
  nth_error (lines_of t) i = Some l ->
  filter is_bracket l = [] ->
  nth_error (output w) i =
  Some (record (Z.of_nat i + 1)
               (scan_line zero (concat (firstn i (lines_of t)))) l ++ [LF]) /\
  (i = 0 ->
   nth_error (output w) i = Some (record 1 zero l ++ [LF])) /\
  (forall j l', i = S j -> nth_error (lines_of t) j = Some l' ->
   exists k,
     nth_error (output w) j = Some (record (Z.of_nat j + 1) k l' ++ [LF]) /\
     nth_error (output w) i = Some (record (Z.of_nat i + 1) k l ++ [LF])).
Proof.
  intros Hf Hl Hplain.
  assert (Hrec : forall m x, nth_error (lines_of t) m = Some x ->
            nth_error (output w) m =
            Some (record (Z.of_nat m + 1)
                    (scan_line zero (concat (firstn (S m) (lines_of t)))) x
                  ++ [LF])).
  { intros m x Hx. rewrite (output_holds w Hf).
    rewrite nth_error_app1
      by (rewrite length_records; apply nth_error_Some; congruence).
    rewrite (nth_records _ _ 1%Z zero Hx), (Z.add_comm 1). reflexivity. }
  assert (E : scan_line zero (concat (firstn (S i) (lines_of t)))
              = scan_line zero (concat (firstn i (lines_of t)))).
  { rewrite (firstn_succ_nth _ _ Hl), concat_app, scan_line_app.
    cbn [concat]. rewrite app_nil_r. apply scan_line_plain, Hplain. }
  split; [| split].
  - rewrite (Hrec i l Hl), E. reflexivity.
  - intros ->. rewrite (Hrec 0 l Hl), E. reflexivity.
  - intros j l' -> Hl'.
    exists (scan_line zero (concat (firstn (S j) (lines_of t)))).
    split; [apply Hrec, Hl' |]. rewrite (Hrec (S j) l Hl), E. reflexivity.
Qed.

Lemma plain_line_repeats_witness :
  nth_error (output (world_with (Holds (lit "f(" ++ LF :: lit "x, y")))) 1
  = Some (lit "   2: paren=  1 brace=  0 brack=  0 | x, y" ++ [LF]).
Proof.
  exact (proj1 (@plain_line_repeats
    (world_with (Holds (lit "f(" ++ LF :: lit "x, y")))
    (lit "f(" ++ LF :: lit "x, y") (lit "x, y") 1
    eq_refl eq_refl eq_refl)).
Defined.
